(** * make_prez_names.py: a generator of synthetic SQL

    A shallow embedding of the script [make_prez_names.py] together with the
    small part of the Python runtime it relies on: [str.split], the
    printf-style [%] operator on strings, [random.choice], list subscripts,
    [range], [for] loops and [print].

    The script has two effects: it consumes the process-wide random source
    and it appends text to standard output.  Both are threaded through an
    explicit [World]; Python exceptions are the [Raise] outcome of a
    computation, and the text printed before an exception stays printed. *)

From Stdlib Require Import ZArith List String Ascii Bool Lia PeanoNat.
From Stdlib Require Import DecimalString DecimalZ.
Import ListNotations.

Local Open Scope string_scope.
Local Open Scope Z_scope.

(** ** The Python runtime used by the script *)

Module Py.

(** Characters that Rocq's string notation cannot spell directly. *)
Definition dquote : ascii := "034"%char.
Definition newline : ascii := "010"%char.
Definition percent : ascii := "%"%char.

(** The values that reach the [%] operator in this script. *)
Inductive value : Type :=
| VInt (z : Z)
| VStr (s : string).

Inductive exn : Type :=
| IndexError
| TypeError
| ValueError.

Inductive result (A : Type) : Type :=
| Ok (a : A)
| Raise (e : exn).
Arguments Ok {A} a.
Arguments Raise {A} e.

(** The process state the script can observe or change.  [random] is the
    random source: [random k] is the raw value behind the [k]-th draw;
    [drawn] counts the draws made so far; [stdout] is the text written. *)
Record World : Type := mkWorld {
  random : nat -> nat;
  drawn : nat;
  stdout : string
}.

Definition M (A : Type) : Type := World -> result A * World.

Definition ret {A} (a : A) : M A := fun w => (Ok a, w).

Definition raise {A} (e : exn) : M A := fun w => (Raise e, w).

Definition bind {A B} (m : M A) (k : A -> M B) : M B :=
  fun w =>
    match m w with
    | (Ok a, w') => k a w'
    | (Raise e, w') => (Raise e, w')
    end.

Definition lift {A} (r : result A) : M A := fun w => (r, w).

Definition initial (rnd : nat -> nat) : World :=
  {| random := rnd; drawn := 0%nat; stdout := "" |}.

(** *** [str.split()] with no separator *)

(** Whitespace in the sense of [str.isspace], for code points below 256. *)
Definition isspace (c : ascii) : bool :=
  let n := nat_of_ascii c in
  ((9 <=? n) && (n <=? 13) || (28 <=? n) && (n <=? 32)
   || (n =? 133) || (n =? 160))%nat.

(** [split_from s cur] scans [s] with [cur] the token read so far: runs of
    whitespace separate tokens and never produce an empty one. *)
Fixpoint split_from (s : string) (cur : string) : list string :=
  match s with
  | EmptyString => match cur with EmptyString => [] | _ => [cur] end
  | String c s' =>
      if isspace c then
        match cur with
        | EmptyString => split_from s' ""
        | _ => cur :: split_from s' ""
        end
      else split_from s' (cur ++ String c "")
  end.

Definition split (s : string) : list string := split_from s "".

(** *** [str(int)] and the [%] operator *)

Definition str_int (z : Z) : string := NilEmpty.string_of_int (Z.to_int z).

Definition str (v : value) : string :=
  match v with
  | VInt z => str_int z
  | VStr s => s
  end.

Definition map_result {A B} (f : A -> B) (r : result A) : result B :=
  match r with
  | Ok a => Ok (f a)
  | Raise e => Raise e
  end.

(** [format fmt args] is [fmt % args] for a tuple [args], restricted to
    the conversions [%s], [%i], [%d] and [%%] without flags, width or
    precision; any other conversion character is rejected.  Too few
    arguments, an argument left over, and a string given to [%i] are
    [TypeError]s; a dangling [%] is a [ValueError]. *)
Fixpoint format (fmt : string) (args : list value) : result string :=
  match fmt with
  | EmptyString =>
      match args with
      | [] => Ok ""
      | _ :: _ => Raise TypeError
      end
  | String c rest =>
      if Ascii.eqb c percent then
        match rest with
        | EmptyString => Raise ValueError
        | String k rest' =>
            if Ascii.eqb k percent then
              map_result (String percent) (format rest' args)
            else if Ascii.eqb k "s" then
              match args with
              | [] => Raise TypeError
              | v :: args' =>
                  map_result (append (str v)) (format rest' args')
              end
            else if Ascii.eqb k "i" || Ascii.eqb k "d" then
              match args with
              | [] => Raise TypeError
              | VInt z :: args' =>
                  map_result (append (str_int z)) (format rest' args')
              | VStr _ :: _ => Raise TypeError
              end
            else Raise ValueError
        end
      else map_result (String c) (format rest args)
  end.

(** *** Sequences *)

(** [l[i]]: a negative index counts from the end, an index outside the
    list raises [IndexError]. *)
Definition getitem {A} (l : list A) (i : Z) : M A :=
  let n := Z.of_nat (List.length l) in
  let j := if i <? 0 then i + n else i in
  if (0 <=? j) && (j <? n) then
    match nth_error l (Z.to_nat j) with
    | Some x => ret x
    | None => raise IndexError
    end
  else raise IndexError.

(** [range(n)]: empty when [n <= 0]. *)
Definition range (n : Z) : list Z := map Z.of_nat (seq 0 (Z.to_nat n)).

(** [random.choice(seq)]: one draw from the random source selects an
    index below [len(seq)]; an empty sequence raises [IndexError]. *)
Definition choice {A} (seq : list A) : M A :=
  fun w =>
    match seq with
    | [] => (Raise IndexError, w)
    | x :: _ =>
        let i := (random w (drawn w) mod List.length seq)%nat in
        (Ok (nth i seq x),
         {| random := random w; drawn := S (drawn w); stdout := stdout w |})
    end.

(** [print(s)] writes [s] and a line terminator. *)
Definition print (s : string) : M unit :=
  fun w =>
    (Ok tt,
     {| random := random w; drawn := drawn w;
        stdout := stdout w ++ s ++ String newline "" |}).

(** [for x in l: body]. *)
Fixpoint for_ {A} (l : list A) (body : A -> M unit) : M unit :=
  match l with
  | [] => ret tt
  | x :: l' => bind (body x) (fun _ => for_ l' body)
  end.

End Py.

Import Py.

Declare Scope py_scope.
Delimit Scope py_scope with py.
Notation "x <- m ;; k" := (bind m (fun x => k))
  (at level 61, m at next level, right associativity) : py_scope.
Notation "m ;; k" := (bind m (fun _ => k))
  (at level 61, right associativity) : py_scope.
Local Open Scope py_scope.

(** ** The script *)

Definition ITEMS : Z := 100.
Definition EDITS : Z := 500.

(** The list literal bound to [names] before it is rebound to the split
    entries. *)
Definition names_literal : list string :=
  [ "George Washington";
    "Thomas Jefferson";
    "Abraham Lincoln";
    "Franklin Roosevelt";
    "John Kenedy" ].

(** [names = [n.split() for n in names]] *)
Definition split_names (literal : list string) : list (list string) :=
  map split literal.

Definition names : list (list string) := split_names names_literal.

Definition full_name_format : string := "%s %s".

Definition insert_format : string :=
  "INSERT OR REPLACE INTO people VALUES (%i, "
    ++ String dquote "%s" ++ String dquote ");".

(** [full_name = "%s %s" % (random.choice(names)[0], random.choice(names)[1])] *)
Definition full_name (pool : list (list string)) : M string :=
  a <- choice pool ;;
  first <- getitem a 0 ;;
  b <- choice pool ;;
  last <- getitem b 1 ;;
  lift (format full_name_format [VStr first; VStr last]).

(** [print('INSERT OR REPLACE INTO people VALUES (%i, "%s");' % (item, full_name))] *)
Definition print_insert (item : Z) (name : string) : M unit :=
  line <- lift (format insert_format [VInt item; VStr name]) ;;
  print line.

(** The module body, with the two constants and the list literal as
    parameters. *)
Definition script (items edits : Z) (literal : list string) : M unit :=
  let pool := split_names literal in
  print "BEGIN;" ;;
  for_ (range edits) (fun edit =>
    for_ (range items) (fun item =>
      name <- full_name pool ;;
      print_insert item name)) ;;
  print "COMMIT;".

(** The program as shipped. *)
Definition main : M unit := script ITEMS EDITS names_literal.

(** ** Reading the output back

    The statements below speak of the lines of the output, of the slot and
    of the name on a line.  These are recovered from the printed text by
    the functions of this section, which know nothing of how the script
    built it. *)

(** The lines of a text, each ended by a line terminator; a last fragment
    without terminator counts as a line when it is not empty. *)
Fixpoint lines (text : string) : list string :=
  match text with
  | EmptyString => []
  | String c rest =>
      if Ascii.eqb c newline then "" :: lines rest
      else
        match lines rest with
        | [] => [String c ""]
        | l :: ls => String c l :: ls
        end
  end.

(** The text made of the given lines, each followed by its terminator. *)
Fixpoint unlines (ls : list string) : string :=
  match ls with
  | [] => ""
  | l :: ls' => l ++ String newline (unlines ls')
  end.

Fixpoint no_newline (s : string) : bool :=
  match s with
  | EmptyString => true
  | String c s' => negb (Ascii.eqb c newline) && no_newline s'
  end.

Fixpoint strip_prefix (p s : string) : option string :=
  match p with
  | EmptyString => Some s
  | String a p' =>
      match s with
      | EmptyString => None
      | String b s' => if Ascii.eqb a b then strip_prefix p' s' else None
      end
  end.

(** [strip_suffix suf s] is [Some t] when [s = t ++ suf]. *)
Fixpoint strip_suffix (suf s : string) : option string :=
  if String.eqb s suf then Some ""
  else
    match s with
    | EmptyString => None
    | String c s' => option_map (String c) (strip_suffix suf s')
    end.

Definition is_digit (c : ascii) : bool :=
  let n := nat_of_ascii c in ((48 <=? n) && (n <=? 57))%nat.

(** The longest prefix of decimal digits, and what follows it. *)
Fixpoint span_digits (s : string) : string * string :=
  match s with
  | EmptyString => ("", "")
  | String c s' =>
      if is_digit c then
        let (d, r) := span_digits s' in (String c d, r)
      else ("", s)
  end.

(** A decimal integer literal at the head of [s], with an optional sign. *)
Definition read_int (s : string) : option (Z * string) :=
  let '(sign, (digits, rest)) :=
    match s with
    | String "-" s' => ("-", span_digits s')
    | _ => ("", span_digits s)
    end in
  match digits with
  | EmptyString => None
  | _ =>
      match NilEmpty.int_of_string (sign ++ digits) with
      | Some d => Some (Z.of_int d, rest)
      | None => None
      end
  end.

(** The slot and the name of a line of the form
    [INSERT OR REPLACE INTO people VALUES (<slot>, "<name>");]. *)
Definition parse_insert (line : string) : option (Z * string) :=
  match strip_prefix "INSERT OR REPLACE INTO people VALUES (" line with
  | None => None
  | Some after_paren =>
      match read_int after_paren with
      | None => None
      | Some (slot, after_slot) =>
          match strip_prefix (", " ++ String dquote "") after_slot with
          | None => None
          | Some quoted =>
              match strip_suffix (String dquote ");") quoted with
              | None => None
              | Some name => Some (slot, name)
              end
          end
      end
  end.

Definition slot_of (line : string) : option Z :=
  option_map fst (parse_insert line).

Definition name_of (line : string) : option string :=
  option_map snd (parse_insert line).

Definition is_insert (line : string) : bool :=
  match parse_insert line with
  | Some _ => true
  | None => false
  end.

(** How many of the given lines carry slot [s]. *)
Definition occurrences (s : Z) (ls : list string) : nat :=
  List.length
    (filter (fun l => match slot_of l with
                      | Some s' => s' =? s
                      | None => false
                      end) ls).

(** The indices returned by the first [n] calls of [random.choice] on a
    pool of [size] entries. *)
Definition observed_draws (rnd : nat -> nat) (size n : nat) : list nat :=
  map (fun k => (rnd k mod size)%nat) (seq 0 n).

(** The text the script leaves on standard output when started with an
    empty output and the random source [rnd]. *)
Definition output (items edits : Z) (literal : list string)
    (rnd : nat -> nat) : string :=
  stdout (snd (script items edits literal (initial rnd))).

(** ** What the spec says the output is *)

(** The insert statement as the spec words it: the slot in decimal and the
    name between double quotes, both pasted in as they are. *)
Definition quoted (s : string) : string :=
  String dquote s ++ String dquote "".

Definition insert_statement (slot : Z) (name : string) : string :=
  "INSERT OR REPLACE INTO people VALUES (" ++ str_int slot ++ ", "
    ++ quoted name ++ ");".

(** The pool entry selected by draw number [k]. *)
Definition drawn_entry (pool : list (list string)) (rnd : nat -> nat)
    (k : nat) : list string :=
  nth (rnd k mod List.length pool)%nat pool [].

(** The name built from two consecutive draws [k] and [k + 1]: the first
    token of one entry, a space, the second token of the other. *)
Definition name_at (pool : list (list string)) (rnd : nat -> nat)
    (k : nat) : string :=
  nth 0 (drawn_entry pool rnd k) "" ++ " "
    ++ nth 1 (drawn_entry pool rnd (S k)) "".

(** The lines of one pass: slots [0 .. items - 1] in increasing order,
    iteration [p * items + s] using draws [2 * (p * items + s)] and the
    next one. *)
Definition pass_lines (pool : list (list string)) (rnd : nat -> nat)
    (items p : nat) : list string :=
  map (fun s => insert_statement (Z.of_nat s)
                  (name_at pool rnd (2 * (p * items + s))))
      (seq 0 items).

(** All insert lines: pass after pass. *)
Definition insert_lines (pool : list (list string)) (rnd : nat -> nat)
    (items edits : nat) : list string :=
  flat_map (pass_lines pool rnd items) (seq 0 edits).

(** A pool on which the loop body cannot fail: it is not empty and every
    entry has at least two tokens. *)
Definition usable (pool : list (list string)) : Prop :=
  pool <> [] /\ Forall (fun e => (2 <= List.length e)%nat) pool.

Definition first_names : list string :=
  ["George"; "Thomas"; "Abraham"; "Franklin"; "John"].

Definition last_names : list string :=
  ["Washington"; "Jefferson"; "Lincoln"; "Roosevelt"; "Kenedy"].

(** ** Pools other than the one of the script

    The loops and the loop body do not depend on the five names: the
    definitions below describe what they do on any list literal put in
    their place. *)

(** No whitespace anywhere in [s]. *)
Fixpoint no_space (s : string) : bool :=
  match s with
  | EmptyString => true
  | String c s' => negb (isspace c) && no_space s'
  end.

(** Draws [d] and [d + 1] select entries on which the subscripts [[0]] and
    [[1]] of the loop body succeed. *)
Definition draws_ok (pool : list (list string)) (rnd : nat -> nat)
    (d : nat) : bool :=
  match pool with
  | [] => false
  | _ :: _ =>
      ((1 <=? List.length (drawn_entry pool rnd d))
       && (2 <=? List.length (drawn_entry pool rnd (S d))))%nat
  end.

(** The values taken by [item], iteration after iteration. *)
Definition iteration_slots (items edits : Z) : list Z :=
  map snd (list_prod (range edits) (range items)).

(** The statements of the first [j] iterations when the first of them
    starts at draw [d]. *)
Definition first_statements (pool : list (list string)) (rnd : nat -> nat)
    (slots : list Z) (d j : nat) : list string :=
  map (fun i => insert_statement (nth i slots 0)
                  (name_at pool rnd (d + 2 * i)))
      (seq 0 j).

(** The world [w] after [k] more draws and nothing printed. *)
Definition after_draws (k : nat) (w : World) : World :=
  {| random := random w; drawn := drawn w + k; stdout := stdout w |}.

(** ** Strings *)

Section Strings.

Lemma append_assoc (a b c : string) : (a ++ b) ++ c = a ++ (b ++ c).
Proof.
  induction a as [|x a IH]; simpl; [reflexivity | now rewrite IH].
Qed.

Lemma append_empty_r (a : string) : a ++ "" = a.
Proof.
  induction a as [|x a IH]; simpl; [reflexivity | now rewrite IH].
Qed.

Lemma length_append (a b : string) :
  String.length (a ++ b) = (String.length a + String.length b)%nat.
Proof.
  induction a as [|x a IH]; simpl; [reflexivity | now rewrite IH].
Qed.

Lemma no_newline_append (a b : string) :
  no_newline (a ++ b) = no_newline a && no_newline b.
Proof.
  induction a as [|x a IH]; simpl; [reflexivity|].
  rewrite IH. now rewrite andb_assoc.
Qed.

Lemma unlines_app (xs ys : list string) :
  unlines (xs ++ ys) = unlines xs ++ unlines ys.
Proof.
  induction xs as [|x xs IH]; simpl; [reflexivity|].
  rewrite IH, append_assoc. reflexivity.
Qed.

(** A line without terminator inside it is read back as it was written. *)
Lemma lines_cons (l rest : string) :
  no_newline l = true ->
  lines (l ++ String newline rest) = l :: lines rest.
Proof.
  induction l as [|c l IH]; simpl; intros H; [reflexivity|].
  apply andb_true_iff in H. destruct H as [Hc Hl].
  apply negb_true_iff in Hc. rewrite Hc, (IH Hl). reflexivity.
Qed.

Lemma lines_unlines (ls : list string) :
  forallb no_newline ls = true -> lines (unlines ls) = ls.
Proof.
  induction ls as [|l ls IH]; simpl; intros H; [reflexivity|].
  apply andb_true_iff in H. destruct H as [Hl Hls].
  rewrite (lines_cons _ _ Hl), (IH Hls). reflexivity.
Qed.

Lemma strip_suffix_append (suf name : string) :
  strip_suffix suf (name ++ suf) = Some name.
Proof.
  induction name as [|c name IH].
  - simpl. destruct suf; simpl; rewrite ?Ascii.eqb_refl, ?String.eqb_refl;
      reflexivity.
  - cbn [append strip_suffix].
    destruct (String.eqb_spec (String c (name ++ suf)) suf) as [E|_].
    + apply (f_equal String.length) in E. simpl in E.
      rewrite length_append in E. lia.
    + rewrite IH. reflexivity.
Qed.

End Strings.

(** ** Decimal numerals *)

Section Decimal.

Lemma span_digits_uint (d : Decimal.uint) (rest : string) :
  fst (span_digits rest) = "" ->
  span_digits (NilEmpty.string_of_uint d ++ rest)
  = (NilEmpty.string_of_uint d, rest).
Proof.
  intros Hrest.
  induction d as [|d IH|d IH|d IH|d IH|d IH|d IH|d IH|d IH|d IH|d IH];
    simpl; try (rewrite IH; reflexivity).
  destruct rest as [|c rest]; [reflexivity|].
  simpl in *. destruct (is_digit c); [|reflexivity].
  destruct (span_digits rest); discriminate.
Qed.

Lemma no_newline_uint (d : Decimal.uint) :
  no_newline (NilEmpty.string_of_uint d) = true.
Proof.
  induction d; simpl; auto.
Qed.

Lemma no_newline_str_int (z : Z) : no_newline (str_int z) = true.
Proof.
  unfold str_int. destruct (Z.to_int z); simpl; apply no_newline_uint.
Qed.

Lemma uint_head (d : Decimal.uint) :
  d <> Decimal.Nil ->
  exists c s, NilEmpty.string_of_uint d = String c s
              /\ Ascii.eqb c "-" = false.
Proof.
  destruct d; intros H; [congruence| ..]; simpl; eexists _, _; split;
    reflexivity.
Qed.

Lemma to_int_nonnil (z : Z) :
  match Z.to_int z with
  | Decimal.Pos d | Decimal.Neg d => d <> Decimal.Nil
  end.
Proof.
  destruct z; simpl; [discriminate | |];
    apply DecimalPos.Unsigned.to_uint_nonnil.
Qed.

(** Reading back a printed integer, whatever follows it, as long as no
    digit follows it. *)
Lemma read_int_str_int (z : Z) (rest : string) :
  fst (span_digits rest) = "" ->
  read_int (str_int z ++ rest) = Some (z, rest).
Proof.
  intros Hrest. unfold read_int, str_int.
  pose proof (to_int_nonnil z) as Hnn.
  pose proof (DecimalZ.of_to z) as Hz.
  pose proof (NilEmpty.isi (Z.to_int z)) as Hisi.
  destruct (Z.to_int z) as [d|d].
  - destruct (uint_head d Hnn) as (c & s & Hd & Hc).
    cbn [NilEmpty.string_of_int] in *.
    assert (Hsp := span_digits_uint d rest Hrest).
    rewrite Hd in *. cbn [append] in *.
    assert (Hm : (match String c (s ++ rest) with
                  | String "-" s' => ("-", span_digits s')
                  | _ => ("", span_digits (String c (s ++ rest)))
                  end) = ("", span_digits (String c (s ++ rest)))).
    { destruct c as [[] [] [] [] [] [] [] []]; try reflexivity.
      discriminate Hc. }
    rewrite Hm, Hsp. cbn [append]. rewrite Hisi, Hz. reflexivity.
  - destruct (uint_head d Hnn) as (c & s & Hd & Hc).
    cbn [NilEmpty.string_of_int append] in *.
    rewrite (span_digits_uint d rest Hrest).
    rewrite Hd in *. cbn [append]. rewrite Hisi, Hz. reflexivity.
Qed.

End Decimal.

(** ** The insert statement *)

Section InsertStatement.

Lemma insert_statement_unfold (slot : Z) (name : string) :
  insert_statement slot name
  = "INSERT OR REPLACE INTO people VALUES ("
      ++ str_int slot ++ ", " ++ String dquote (name ++ String dquote ");").
Proof.
  unfold insert_statement, quoted. cbn [append].
  rewrite !append_assoc. reflexivity.
Qed.

(** The [%] operator applied to the script's format yields the statement
    as the spec words it. *)
Lemma format_insert (item : Z) (name : string) :
  format insert_format [VInt item; VStr name]
  = Ok (insert_statement item name).
Proof.
  rewrite insert_statement_unfold. reflexivity.
Qed.

Lemma format_full_name (first last : string) :
  format full_name_format [VStr first; VStr last]
  = Ok (first ++ " " ++ last).
Proof.
  cbn. rewrite append_empty_r. reflexivity.
Qed.

Lemma parse_insert_statement (slot : Z) (name : string) :
  parse_insert (insert_statement slot name) = Some (slot, name).
Proof.
  rewrite insert_statement_unfold. unfold parse_insert.
  cbn [strip_prefix append Ascii.eqb Bool.eqb].
  rewrite read_int_str_int by reflexivity.
  cbn [strip_prefix append Ascii.eqb Bool.eqb dquote].
  rewrite strip_suffix_append. reflexivity.
Qed.

Lemma no_newline_insert_statement (slot : Z) (name : string) :
  no_newline (insert_statement slot name) = no_newline name.
Proof.
  rewrite insert_statement_unfold.
  rewrite !no_newline_append, no_newline_str_int. cbn.
  rewrite no_newline_append. cbn. apply andb_true_r.
Qed.

End InsertStatement.

(** ** Running the loop body *)

Section LoopBody.

Variable pool : list (list string).
Hypothesis pool_usable : usable pool.

Lemma getitem_nth {A} (l : list A) (i : nat) (d : A) (w : World) :
  (i < List.length l)%nat ->
  getitem l (Z.of_nat i) w = (Ok (nth i l d), w).
Proof.
  intros Hi. unfold getitem.
  destruct (Z.ltb_spec (Z.of_nat i) 0) as [Hneg|_]; [lia|].
  destruct (Z.leb_spec 0 (Z.of_nat i)) as [_|Hneg]; [|lia].
  destruct (Z.ltb_spec (Z.of_nat i) (Z.of_nat (List.length l))) as [_|Hge];
    [|lia].
  cbn [andb]. rewrite Nat2Z.id.
  rewrite (nth_error_nth' l d Hi). reflexivity.
Qed.

Lemma drawn_entry_usable (rnd : nat -> nat) (k : nat) :
  In (drawn_entry pool rnd k) pool
  /\ (2 <= List.length (drawn_entry pool rnd k))%nat.
Proof.
  destruct pool_usable as [Hne Hall].
  assert (Hin : In (drawn_entry pool rnd k) pool).
  { unfold drawn_entry. apply nth_In. apply Nat.mod_upper_bound.
    destruct pool; [congruence | discriminate]. }
  split; [exact Hin|].
  rewrite Forall_forall in Hall. exact (Hall _ Hin).
Qed.

Lemma choice_run (w : World) :
  choice pool w
  = (Ok (drawn_entry pool (random w) (drawn w)),
     {| random := random w; drawn := S (drawn w); stdout := stdout w |}).
Proof.
  unfold choice, drawn_entry. destruct pool_usable as [Hne _].
  destruct pool as [|e es] eqn:E; [congruence|].
  do 2 f_equal. apply nth_indep. apply Nat.mod_upper_bound. discriminate.
Qed.

(** The right-hand side of the assignment to [full_name] makes two draws
    and cannot fail. *)
Lemma full_name_run (w : World) :
  full_name pool w
  = (Ok (name_at pool (random w) (drawn w)),
     {| random := random w; drawn := S (S (drawn w)); stdout := stdout w |}).
Proof.
  unfold full_name, bind. rewrite choice_run.
  destruct (drawn_entry_usable (random w) (drawn w)) as [_ H0].
  rewrite (getitem_nth _ 0%nat "") by lia.
  rewrite choice_run. cbn [random drawn stdout].
  destruct (drawn_entry_usable (random w) (S (drawn w))) as [_ H1].
  rewrite (getitem_nth _ 1%nat "") by lia.
  unfold lift. rewrite format_full_name. reflexivity.
Qed.

Lemma print_insert_run (item : Z) (name : string) (w : World) :
  print_insert item name w
  = (Ok tt,
     {| random := random w; drawn := drawn w;
        stdout := stdout w ++ insert_statement item name
                    ++ String newline "" |}).
Proof.
  unfold print_insert, bind, lift. rewrite format_insert. reflexivity.
Qed.

Lemma flat_map_seq_succ {B} (f : nat -> list B) (a n : nat) :
  flat_map f (seq (S a) n) = flat_map (fun p => f (S p)) (seq a n).
Proof.
  rewrite <- seq_shift, !flat_map_concat_map, map_map. reflexivity.
Qed.

(** The [for item in range(ITEMS)] loop, started at any slot [a]. *)
Lemma items_loop (m : nat) : forall (a : nat) (w : World),
  for_ (map Z.of_nat (seq a m))
       (fun item => name <- full_name pool ;; print_insert item name) w
  = (Ok tt,
     {| random := random w; drawn := drawn w + 2 * m;
        stdout :=
          stdout w
          ++ unlines
               (map (fun j => insert_statement (Z.of_nat (a + j))
                                (name_at pool (random w) (drawn w + 2 * j)))
                    (seq 0 m)) |}).
Proof.
  induction m as [|m IH]; intros a w.
  - cbn. unfold ret. destruct w as [r d o]. cbn.
    rewrite Nat.add_0_r, append_empty_r. reflexivity.
  - cbn [seq map for_]. unfold bind at 1. unfold bind at 1.
    rewrite full_name_run, print_insert_run. rewrite IH.
    cbn [random drawn stdout]. f_equal. f_equal; [lia|].
    rewrite <- (seq_shift m 0), map_map. cbn [unlines].
    rewrite !append_assoc, !Nat.add_0_r. cbn [append Nat.mul].
    do 4 f_equal. apply map_ext. intros j.
    f_equal; [f_equal; lia | f_equal; lia].
Qed.

(** The [for edit in range(EDITS)] loop around it.  The lines of later
    passes use later draws: [d] is the number of draws made before the
    first pass. *)
Lemma edits_loop (items n : nat) : forall (b : nat) (w : World),
  for_ (map Z.of_nat (seq b n))
       (fun _ =>
          for_ (map Z.of_nat (seq 0 items))
               (fun item => name <- full_name pool ;; print_insert item name))
       w
  = (Ok tt,
     {| random := random w; drawn := drawn w + 2 * (n * items);
        stdout :=
          stdout w
          ++ unlines
               (flat_map
                  (fun p =>
                     map (fun s =>
                            insert_statement (Z.of_nat s)
                              (name_at pool (random w)
                                 (drawn w + 2 * (p * items + s))))
                         (seq 0 items))
                  (seq 0 n)) |}).
Proof.
  induction n as [|n IH]; intros b w.
  - cbn. unfold ret. destruct w as [r d o]. cbn.
    rewrite Nat.add_0_r, append_empty_r. reflexivity.
  - cbn [seq map for_]. unfold bind at 1.
    rewrite items_loop, IH. cbn [random drawn stdout].
    f_equal. f_equal; [lia|].
    cbn [flat_map]. rewrite flat_map_seq_succ.
    rewrite unlines_app, !append_assoc. f_equal. f_equal.
    f_equal. apply flat_map_ext. intros p. apply map_ext. intros s.
    do 2 f_equal. lia.
Qed.

End LoopBody.

(** ** Running the script *)

Section Script.

Lemma script_run (items edits : Z) (literal : list string) (w : World) :
  usable (split_names literal) ->
  script items edits literal w
  = (Ok tt,
     {| random := random w;
        drawn := drawn w + 2 * (Z.to_nat edits * Z.to_nat items);
        stdout :=
          stdout w
          ++ unlines
               ("BEGIN;"
                :: flat_map
                     (fun p =>
                        map (fun s =>
                               insert_statement (Z.of_nat s)
                                 (name_at (split_names literal) (random w)
                                    (drawn w
                                     + 2 * (p * Z.to_nat items + s))))
                            (seq 0 (Z.to_nat items)))
                     (seq 0 (Z.to_nat edits))
                ++ ["COMMIT;"]) |}).
Proof.
  intros Hpool. unfold script, range. unfold bind at 1. cbn [print].
  unfold bind at 1. rewrite (edits_loop _ Hpool).
  unfold print. cbn [random drawn stdout]. do 2 f_equal.
  cbn [unlines]. rewrite unlines_app. cbn [unlines].
  rewrite !append_assoc. reflexivity.
Qed.

Lemma output_text (items edits : Z) (literal : list string)
    (rnd : nat -> nat) :
  usable (split_names literal) ->
  output items edits literal rnd
  = unlines ("BEGIN;"
             :: insert_lines (split_names literal) rnd
                  (Z.to_nat items) (Z.to_nat edits)
             ++ ["COMMIT;"]).
Proof.
  intros Hpool. unfold output. rewrite (script_run _ _ _ _ Hpool).
  reflexivity.
Qed.

Lemma length_flat_map_const {A B} (f : A -> list B) (n : nat) (l : list A) :
  (forall x, List.length (f x) = n) ->
  List.length (flat_map f l) = (List.length l * n)%nat.
Proof.
  intros Hf. induction l as [|x l IH]; cbn; [reflexivity|].
  rewrite length_app, Hf, IH. reflexivity.
Qed.

Lemma length_pass_lines pool rnd (items p : nat) :
  List.length (pass_lines pool rnd items p) = items.
Proof.
  unfold pass_lines. now rewrite length_map, length_seq.
Qed.

Lemma length_insert_lines pool rnd (items edits : nat) :
  List.length (insert_lines pool rnd items edits) = (edits * items)%nat.
Proof.
  unfold insert_lines.
  rewrite (length_flat_map_const _ items), length_seq; [reflexivity|].
  intros p. apply length_pass_lines.
Qed.

(** Line [p * items + s] of the insert lines is line [s] of pass [p]. *)
Lemma nth_flat_map_seq {B} (f : nat -> list B) (n : nat) (d : B) :
  (forall p, List.length (f p) = n) ->
  forall (m p s : nat), (p < m)%nat -> (s < n)%nat ->
  nth (p * n + s) (flat_map f (seq 0 m)) d = nth s (f p) d.
Proof.
  intros Hf. induction m as [|m IH]; intros p s Hp Hs; [lia|].
  rewrite seq_S, flat_map_app. cbn [flat_map Nat.add].
  rewrite app_nil_r.
  assert (Hlen : List.length (flat_map f (seq 0 m)) = (m * n)%nat).
  { rewrite (length_flat_map_const _ n), length_seq; auto. }
  destruct (Nat.eq_dec p m) as [->|Hne].
  - rewrite app_nth2 by lia. rewrite Hlen. f_equal. lia.
  - rewrite app_nth1 by nia. apply IH; lia.
Qed.

Lemma nth_insert_lines pool rnd (items edits k : nat) :
  (k < edits * items)%nat ->
  nth k (insert_lines pool rnd items edits) ""
  = insert_statement (Z.of_nat (k mod items)) (name_at pool rnd (2 * k)).
Proof.
  intros Hk.
  assert (Hi : items <> 0%nat) by lia.
  pose proof (Nat.div_mod_eq k items) as Hdm.
  pose proof (Nat.mod_upper_bound k items Hi) as Hm.
  assert (Hp : (k / items < edits)%nat).
  { apply Nat.Div0.div_lt_upper_bound. lia. }
  unfold insert_lines.
  replace k with (k / items * items + k mod items)%nat at 1 by lia.
  rewrite (nth_flat_map_seq _ items) by
    (auto using length_pass_lines).
  unfold pass_lines.
  set (f := fun s : nat => insert_statement _ _).
  rewrite (nth_indep _ "" (f 0%nat)) by
    (now rewrite length_map, length_seq).
  rewrite map_nth, seq_nth by assumption. unfold f. cbn [Nat.add].
  do 2 f_equal. lia.
Qed.

End Script.

(** ** The name pool of the script *)

Section Pool.

Lemma names_value :
  names = [["George"; "Washington"]; ["Thomas"; "Jefferson"];
           ["Abraham"; "Lincoln"]; ["Franklin"; "Roosevelt"];
           ["John"; "Kenedy"]].
Proof. reflexivity. Qed.

Lemma names_usable : usable names.
Proof.
  rewrite names_value. split; [discriminate|].
  repeat constructor.
Qed.

Ltac each_draw r :=
  let H := fresh "H" in
  pose proof (Nat.mod_upper_bound r 5) as H;
  destruct (r mod 5)%nat as [|[|[|[|[|?]]]]]; [ | | | | | lia].

Lemma first_token_names (rnd : nat -> nat) (k : nat) :
  In (nth 0 (drawn_entry names rnd k) "") first_names.
Proof.
  unfold drawn_entry. rewrite names_value. cbn [List.length].
  each_draw (rnd k); cbn; auto 6.
Qed.

Lemma last_token_names (rnd : nat -> nat) (k : nat) :
  In (nth 1 (drawn_entry names rnd k) "") last_names.
Proof.
  unfold drawn_entry. rewrite names_value. cbn [List.length].
  each_draw (rnd k); cbn; auto 6.
Qed.

Lemma no_newline_in (s : string) :
  In s first_names \/ In s last_names -> no_newline s = true.
Proof.
  cbn. intuition (subst; reflexivity).
Qed.

Lemma no_newline_name_at (rnd : nat -> nat) (k : nat) :
  no_newline (name_at names rnd k) = true.
Proof.
  unfold name_at. rewrite !no_newline_append.
  rewrite (no_newline_in _ (or_introl (first_token_names rnd k))).
  rewrite (no_newline_in _ (or_intror (last_token_names rnd (S k)))).
  reflexivity.
Qed.

Lemma no_newline_insert_lines (rnd : nat -> nat) (items edits : nat) :
  forallb no_newline (insert_lines names rnd items edits) = true.
Proof.
  apply forallb_forall. intros l Hl. unfold insert_lines in Hl.
  apply in_flat_map in Hl. destruct Hl as (p & _ & Hl).
  unfold pass_lines in Hl. apply in_map_iff in Hl.
  destruct Hl as (s & <- & _).
  rewrite no_newline_insert_statement. apply no_newline_name_at.
Qed.

(** The lines of the output, for the pool of the script. *)
Lemma output_lines (items edits : Z) (rnd : nat -> nat) :
  lines (output items edits names_literal rnd)
  = "BEGIN;"
    :: insert_lines names rnd (Z.to_nat items) (Z.to_nat edits)
    ++ ["COMMIT;"].
Proof.
  rewrite (output_text _ _ _ _ names_usable). apply lines_unlines.
  cbn [forallb]. rewrite forallb_app, no_newline_insert_lines. reflexivity.
Qed.

Lemma is_insert_statement (slot : Z) (name : string) :
  is_insert (insert_statement slot name) = true.
Proof.
  unfold is_insert. now rewrite parse_insert_statement.
Qed.

Lemma slot_of_statement (slot : Z) (name : string) :
  slot_of (insert_statement slot name) = Some slot.
Proof.
  unfold slot_of. now rewrite parse_insert_statement.
Qed.

Lemma name_of_statement (slot : Z) (name : string) :
  name_of (insert_statement slot name) = Some name.
Proof.
  unfold name_of. now rewrite parse_insert_statement.
Qed.

Lemma insert_lines_are_inserts pool rnd (items edits : nat) :
  forallb is_insert (insert_lines pool rnd items edits) = true.
Proof.
  apply forallb_forall. intros l Hl. unfold insert_lines in Hl.
  apply in_flat_map in Hl. destruct Hl as (p & _ & Hl).
  unfold pass_lines in Hl. apply in_map_iff in Hl.
  destruct Hl as (s & <- & _). apply is_insert_statement.
Qed.

End Pool.

(** ** The shape of the output *)

Section Shape.

Lemma filter_all {A} (f : A -> bool) (l : list A) :
  forallb f l = true -> filter f l = l.
Proof.
  induction l as [|x l IH]; cbn; intros H; [reflexivity|].
  apply andb_true_iff in H. destruct H as [Hx Hl].
  rewrite Hx, (IH Hl). reflexivity.
Qed.

Lemma flat_map_const {A B} (c : list B) (f : A -> list B) (l : list A) :
  (forall x, f x = c) ->
  flat_map f l = List.concat (repeat c (List.length l)).
Proof.
  intros Hf. induction l as [|x l IH]; cbn; [reflexivity|].
  rewrite Hf, IH. reflexivity.
Qed.

Lemma slots_of_pass pool rnd (items p : nat) :
  map slot_of (pass_lines pool rnd items p)
  = map Some (map Z.of_nat (seq 0 items)).
Proof.
  unfold pass_lines. rewrite !map_map. apply map_ext. intros s.
  apply slot_of_statement.
Qed.

Lemma slots_of_inserts pool rnd (items edits : nat) :
  map slot_of (insert_lines pool rnd items edits)
  = List.concat (repeat (map Some (map Z.of_nat (seq 0 items))) edits).
Proof.
  unfold insert_lines. rewrite flat_map_concat_map, concat_map, map_map.
  rewrite <- flat_map_concat_map.
  rewrite (flat_map_const (map Some (map Z.of_nat (seq 0 items)))).
  - now rewrite length_seq.
  - intros p. apply slots_of_pass.
Qed.

Lemma insert_lines_only (ls : list string) :
  forallb is_insert ls = true ->
  filter is_insert ("BEGIN;" :: ls ++ ["COMMIT;"]) = ls.
Proof.
  intros H. cbn [filter].
  change (is_insert "BEGIN;") with false. cbn iota.
  rewrite filter_app, (filter_all _ _ H). cbn [filter].
  change (is_insert "COMMIT;") with false. cbn iota.
  apply app_nil_r.
Qed.

Lemma last_framed (ls : list string) :
  last ("BEGIN;" :: ls ++ ["COMMIT;"]) "" = "COMMIT;".
Proof.
  change ("BEGIN;" :: ls ++ ["COMMIT;"])
    with (("BEGIN;" :: ls) ++ ["COMMIT;"])%list.
  apply last_last.
Qed.

(** How often a slot occurs among the slots [a .. a + n - 1]. *)
Lemma occurrences_seq (f : nat -> string) (s : Z) (n : nat) :
  forall a : nat,
  List.length
    (filter (fun l => match slot_of l with
                      | Some s' => s' =? s
                      | None => false
                      end)
       (map (fun j => insert_statement (Z.of_nat j) (f j)) (seq a n)))
  = if (Z.of_nat a <=? s) && (s <? Z.of_nat (a + n)) then 1%nat else 0%nat.
Proof.
  induction n as [|n IH]; intros a.
  - cbn. rewrite Nat.add_0_r.
    destruct (Z.leb_spec (Z.of_nat a) s), (Z.ltb_spec s (Z.of_nat a));
      cbn; try reflexivity; lia.
  - cbn [seq map filter]. rewrite slot_of_statement.
    destruct (Z.eqb_spec (Z.of_nat a) s) as [E|E]; cbn [List.length];
      rewrite IH.
    + destruct (Z.leb_spec (Z.of_nat (S a)) s),
        (Z.leb_spec (Z.of_nat a) s), (Z.ltb_spec s (Z.of_nat (a + S n)));
        cbn; try reflexivity; lia.
    + destruct (Z.leb_spec (Z.of_nat (S a)) s),
        (Z.leb_spec (Z.of_nat a) s), (Z.ltb_spec s (Z.of_nat (a + S n))),
        (Z.ltb_spec s (Z.of_nat (S a + n)));
        cbn; try reflexivity; lia.
Qed.

Lemma occurrences_pass pool rnd (items p : nat) (s : Z) :
  0 <= s < Z.of_nat items ->
  occurrences s (pass_lines pool rnd items p) = 1%nat.
Proof.
  intros Hs. unfold occurrences, pass_lines.
  rewrite (occurrences_seq
             (fun j => name_at pool rnd (2 * (p * items + j)))).
  destruct (Z.leb_spec (Z.of_nat 0) s), (Z.ltb_spec s (Z.of_nat (0 + items)));
    cbn; try reflexivity; lia.
Qed.

End Shape.

(** ** Properties of the generator *)

(** C1: for every configuration and every random source, the first line of
    the output is [BEGIN;], the last line is [COMMIT;], and the lines in
    between are exactly the insert lines, [EDITS * ITEMS] of them (none
    when one of the two counts is negative), pass after pass and, inside a
    pass, slot after slot: the slots read [0 .. ITEMS-1], once per pass. *)
Theorem output_shape (items edits : Z) (rnd : nat -> nat) :
  let out := lines (output items edits names_literal rnd) in
  let inserts := insert_lines names rnd (Z.to_nat items) (Z.to_nat edits) in
  out = "BEGIN;" :: inserts ++ ["COMMIT;"]
  /\ hd_error out = Some "BEGIN;"
  /\ last out "" = "COMMIT;"
  /\ filter is_insert out = inserts
  /\ List.length inserts = (Z.to_nat edits * Z.to_nat items)%nat
  /\ (0 <= items -> 0 <= edits ->
      Z.of_nat (List.length inserts) = edits * items)
  /\ map slot_of inserts
     = List.concat (repeat (map Some (range items)) (Z.to_nat edits)).
Proof.
  intros out inserts. subst out. rewrite output_lines. fold inserts.
  pose proof (length_insert_lines names rnd (Z.to_nat items)
                (Z.to_nat edits)) as Hn.
  fold inserts in Hn.
  split; [reflexivity|]. split; [reflexivity|]. split.
  { apply last_framed. }
  split.
  { apply insert_lines_only. apply insert_lines_are_inserts. }
  split; [exact Hn|]. split.
  { intros Hi He. rewrite Hn. lia. }
  apply slots_of_inserts.
Qed.

Lemma output_shape_witness :
  Z.of_nat
    (List.length (insert_lines names (fun k => k) (Z.to_nat 3) (Z.to_nat 2)))
  = 2 * 3.
Proof.
  refine (proj1 (proj2 (proj2 (proj2 (proj2 (proj2
            (output_shape 3 2 (fun k => k))))))) _ _); lia.
Defined.

(** C2: on every insert line the slot is an integer of [[0, ITEMS)], and
    the insert lines fall into [EDITS] passes of [ITEMS] lines in each of
    which every slot of [[0, ITEMS)] occurs exactly once. *)
Theorem slots_in_range_once (items edits : Z) (rnd : nat -> nat) :
  exists passes : list (list string),
    lines (output items edits names_literal rnd)
    = "BEGIN;" :: List.concat passes ++ ["COMMIT;"]
    /\ List.length passes = Z.to_nat edits
    /\ Forall
         (fun pass =>
            List.length pass = Z.to_nat items
            /\ Forall (fun l => exists s, slot_of l = Some s
                                          /\ 0 <= s < items) pass
            /\ forall s, 0 <= s < items -> occurrences s pass = 1%nat)
         passes.
Proof.
  exists (map (pass_lines names rnd (Z.to_nat items))
              (seq 0 (Z.to_nat edits))).
  split.
  { rewrite output_lines. unfold insert_lines.
    now rewrite flat_map_concat_map. }
  split.
  { now rewrite length_map, length_seq. }
  apply Forall_forall. intros pass Hpass.
  apply in_map_iff in Hpass. destruct Hpass as (p & <- & _).
  split; [apply length_pass_lines|]. split.
  - apply Forall_forall. intros l Hl. unfold pass_lines in Hl.
    apply in_map_iff in Hl. destruct Hl as (s & <- & Hs).
    apply in_seq in Hs. exists (Z.of_nat s). split.
    + apply slot_of_statement.
    + lia.
  - intros s Hs. apply occurrences_pass. lia.
Qed.

(** C5: the configuration consists of the two constants [ITEMS = 100] and
    [EDITS = 500]; the program takes nothing else than the world it runs
    in, and with these values it prints exactly 50000 insert lines between
    [BEGIN;] and [COMMIT;]. *)
Theorem configuration_and_count :
  ITEMS = 100 /\ EDITS = 500
  /\ main = script 100 500 names_literal
  /\ forall rnd : nat -> nat,
       let out := lines (stdout (snd (main (initial rnd)))) in
       Z.of_nat (List.length (filter is_insert out)) = 50000
       /\ Z.of_nat (List.length out) = 50002
       /\ hd_error out = Some "BEGIN;"
       /\ last out "" = "COMMIT;".
Proof.
  split; [reflexivity|]. split; [reflexivity|]. split; [reflexivity|].
  intros rnd out.
  assert (Hout : out = "BEGIN;" :: insert_lines names rnd (Z.to_nat ITEMS)
                                     (Z.to_nat EDITS) ++ ["COMMIT;"]).
  { apply (output_lines ITEMS EDITS rnd). }
  clearbody out. subst out.
  pose proof (length_insert_lines names rnd (Z.to_nat ITEMS) (Z.to_nat EDITS))
    as Hn.
  assert (Hcount : Z.of_nat (Z.to_nat EDITS * Z.to_nat ITEMS) = 50000).
  { rewrite Nat2Z.inj_mul, !Z2Nat.id by (unfold ITEMS, EDITS; lia).
    reflexivity. }
  split.
  { rewrite insert_lines_only by apply insert_lines_are_inserts.
    now rewrite Hn. }
  split.
  { cbn [List.length]. rewrite length_app, Hn. cbn [List.length]. lia. }
  split; [reflexivity | apply last_framed].
Qed.

Section Names.

Lemma nth_output_line (items edits : Z) (rnd : nat -> nat) (k : nat) :
  (k < Z.to_nat edits * Z.to_nat items)%nat ->
  nth (S k) (lines (output items edits names_literal rnd)) ""
  = insert_statement (Z.of_nat (k mod Z.to_nat items))
      (name_at names rnd (2 * k)).
Proof.
  intros Hk. rewrite output_lines. cbn [nth].
  rewrite app_nth1 by (now rewrite length_insert_lines).
  now apply nth_insert_lines.
Qed.

Lemma split_recombined (f l : string) :
  In f first_names -> In l last_names -> split (f ++ " " ++ l) = [f; l].
Proof.
  cbn. intuition (subst; reflexivity).
Qed.

Lemma first_token_nth (rnd : nat -> nat) (k i : nat) :
  (i < 5)%nat -> rnd k = i ->
  nth 0 (drawn_entry names rnd k) "" = nth i first_names "".
Proof.
  intros Hi E. unfold drawn_entry. rewrite E.
  do 5 (destruct i as [|i]; [reflexivity|]). lia.
Qed.

Lemma last_token_nth (rnd : nat -> nat) (k j : nat) :
  (j < 5)%nat -> rnd k = j ->
  nth 1 (drawn_entry names rnd k) "" = nth j last_names "".
Proof.
  intros Hj E. unfold drawn_entry. rewrite E.
  do 5 (destruct j as [|j]; [reflexivity|]). lia.
Qed.

End Names.

(** C3: the name on insert line [k] is the first token of the pool entry
    selected by draw [2k], a space, and the second token of the pool entry
    selected by draw [2k + 1].  The first token is one of the five first
    names and the second one of the five last names.  The two draws are
    separate: whatever pair of pool positions [(i, j)] one asks for, some
    random source makes line [k] carry first name [i] with last name [j],
    so the two components may come from different entries. *)
Theorem recombined_name_components (items edits : Z) (rnd : nat -> nat)
    (k : nat) :
  (k < Z.to_nat edits * Z.to_nat items)%nat ->
  let line := nth (S k) (lines (output items edits names_literal rnd)) "" in
  let first := nth 0 (drawn_entry names rnd (2 * k)) "" in
  let last := nth 1 (drawn_entry names rnd (2 * k + 1)) "" in
  name_of line = Some (first ++ " " ++ last)
  /\ split (first ++ " " ++ last) = [first; last]
  /\ In first first_names
  /\ In last last_names
  /\ forall i j : nat, (i < 5)%nat -> (j < 5)%nat ->
       exists rnd' : nat -> nat,
         name_of (nth (S k) (lines (output items edits names_literal rnd')) "")
         = Some (nth i first_names "" ++ " " ++ nth j last_names "").
Proof.
  intros Hk line first last. subst line.
  rewrite (nth_output_line _ _ _ _ Hk), name_of_statement.
  assert (Hf : In first first_names) by apply first_token_names.
  assert (Hl : In last last_names) by apply last_token_names.
  split.
  { unfold name_at. subst first last. now rewrite Nat.add_1_r. }
  split; [now apply split_recombined|]. split; [exact Hf|].
  split; [exact Hl|].
  intros i j Hi Hj.
  exists (fun n => if (n =? 2 * k)%nat then i else j).
  rewrite (nth_output_line _ _ _ _ Hk), name_of_statement.
  unfold name_at.
  rewrite (first_token_nth _ _ i) by
    (auto; now rewrite Nat.eqb_refl).
  rewrite (last_token_nth _ _ j); auto.
  destruct (Nat.eqb_spec (S (2 * k)) (2 * k)); [lia | reflexivity].
Qed.

Lemma recombined_name_components_witness :
  name_of (nth 2 (lines (output 2 1 names_literal (fun n => n))) "")
  = Some "Abraham Roosevelt".
Proof.
  refine (proj1 (recombined_name_components 2 1 (fun n => n) 1 _)).
  vm_compute. lia.
Defined.

(** C4: the statement printed for a slot and a name is the fixed text
    around the decimal slot and the name between double quotes, both pasted
    in unchanged, for every integer and every string; read back, the line
    yields the very same name, whatever characters it holds.  Every insert
    line of a run has this form, and a pool entry with a double quote in it
    reaches the output with that quote as it is. *)
Theorem insert_line_verbatim :
  (forall (item : Z) (name : string) (w : World),
     print_insert item name w
     = (Ok tt,
        {| random := random w; drawn := drawn w;
           stdout :=
             stdout w
             ++ ("INSERT OR REPLACE INTO people VALUES (" ++ str_int item
                 ++ ", " ++ String dquote name ++ String dquote ");")
             ++ String newline "" |}))
  /\ (forall (item : Z) (name : string),
        parse_insert
          ("INSERT OR REPLACE INTO people VALUES (" ++ str_int item
           ++ ", " ++ String dquote name ++ String dquote ");")
        = Some (item, name))
  /\ (forall (items edits : Z) (rnd : nat -> nat) (k : nat),
        (k < Z.to_nat edits * Z.to_nat items)%nat ->
        nth (S k) (lines (output items edits names_literal rnd)) ""
        = "INSERT OR REPLACE INTO people VALUES ("
            ++ str_int (Z.of_nat (k mod Z.to_nat items))
            ++ ", " ++ String dquote (name_at names rnd (2 * k))
            ++ String dquote ");")
  /\ output 1 1 ["Conan O" ++ String dquote "Brien"] (fun _ => 0%nat)
     = "BEGIN;" ++ String newline
         ("INSERT OR REPLACE INTO people VALUES (0, "
            ++ String dquote ("Conan O" ++ String dquote "Brien")
            ++ String dquote ");")
         ++ String newline "COMMIT;" ++ String newline "".
Proof.
  assert (E : forall item name,
             "INSERT OR REPLACE INTO people VALUES (" ++ str_int item
               ++ ", " ++ String dquote name ++ String dquote ");"
             = insert_statement item name).
  { intros. rewrite insert_statement_unfold. reflexivity. }
  split.
  { intros. rewrite E. apply print_insert_run. }
  split.
  { intros. rewrite E. apply parse_insert_statement. }
  split.
  { intros. rewrite E. now apply nth_output_line. }
  vm_compute. reflexivity.
Qed.

Lemma insert_line_verbatim_witness :
  nth 2 (lines (output 2 1 names_literal (fun n => n))) ""
  = "INSERT OR REPLACE INTO people VALUES (1, "
      ++ String dquote "Abraham Roosevelt" ++ String dquote ");".
Proof.
  refine (proj1 (proj2 (proj2 insert_line_verbatim))
            2 1 (fun n => n) 1%nat _).
  vm_compute. lia.
Defined.

(** ** Dependence on the random source *)

Section RandomSource.

Lemma observed_draws_nth (r1 r2 : nat -> nat) (size n k : nat) :
  observed_draws r1 size n = observed_draws r2 size n ->
  (k < n)%nat ->
  (r1 k mod size = r2 k mod size)%nat.
Proof.
  unfold observed_draws. intros H Hk.
  apply (proj1 map_ext_in_iff H). apply in_seq. lia.
Qed.

Lemma name_at_agree (pool : list (list string)) (r1 r2 : nat -> nat)
    (n k : nat) :
  observed_draws r1 (List.length pool) n
  = observed_draws r2 (List.length pool) n ->
  (S k < n)%nat ->
  name_at pool r1 k = name_at pool r2 k.
Proof.
  intros H Hk. unfold name_at, drawn_entry.
  rewrite (observed_draws_nth _ _ _ _ k H) by lia.
  rewrite (observed_draws_nth _ _ _ _ (S k) H) by lia.
  reflexivity.
Qed.

Lemma insert_lines_agree (pool : list (list string)) (r1 r2 : nat -> nat)
    (items edits : nat) :
  observed_draws r1 (List.length pool) (2 * (edits * items))
  = observed_draws r2 (List.length pool) (2 * (edits * items)) ->
  insert_lines pool r1 items edits = insert_lines pool r2 items edits.
Proof.
  intros H. unfold insert_lines. rewrite !flat_map_concat_map. f_equal.
  apply map_ext_in. intros p Hp.
  apply in_seq in Hp. unfold pass_lines. apply map_ext_in. intros s Hs.
  apply in_seq in Hs. f_equal.
  apply (name_at_agree _ _ _ _ _ H). nia.
Qed.

Lemma Forall2_map_same {A B} (R : B -> B -> Prop) (f g : A -> B)
    (l : list A) :
  (forall x, R (f x) (g x)) -> Forall2 R (map f l) (map g l).
Proof.
  intros H. induction l; cbn; constructor; auto.
Qed.

Lemma Forall2_flat_map_same {A B} (R : B -> B -> Prop) (f g : A -> list B)
    (l : list A) :
  (forall x, Forall2 R (f x) (g x)) ->
  Forall2 R (flat_map f l) (flat_map g l).
Proof.
  intros H. induction l; cbn; [constructor|].
  apply Forall2_app; auto.
Qed.

End RandomSource.

(** C6: a run makes [2 * EDITS * ITEMS] draws, and two runs in which these
    draws select the same pool positions print the same text, character
    for character, and end the same way. *)
Theorem deterministic_output (items edits : Z) (r1 r2 : nat -> nat) :
  let n := (2 * (Z.to_nat edits * Z.to_nat items))%nat in
  observed_draws r1 (List.length names) n
  = observed_draws r2 (List.length names) n ->
  drawn (snd (script items edits names_literal (initial r1))) = n
  /\ drawn (snd (script items edits names_literal (initial r2))) = n
  /\ output items edits names_literal r1 = output items edits names_literal r2
  /\ fst (script items edits names_literal (initial r1))
     = fst (script items edits names_literal (initial r2)).
Proof.
  intros n H.
  rewrite !(output_text _ _ _ _ names_usable).
  rewrite !(script_run _ _ _ _ names_usable). cbn [fst snd drawn initial].
  repeat split.
  fold names. now rewrite (insert_lines_agree _ _ _ _ _ H).
Qed.

Lemma deterministic_output_witness :
  output 2 1 names_literal (fun k => k)
  = output 2 1 names_literal (fun k => (k + 5)%nat).
Proof.
  refine (proj1 (proj2 (proj2
            (deterministic_output 2 1 (fun k => k) (fun k => (k + 5)%nat) _)))).
  vm_compute. reflexivity.
Defined.

(** C7: with [ITEMS = 2], [EDITS = 1] and a random source whose every draw
    selects the first pool entry, the run ends normally and the output
    consists of exactly the four lines of the scenario, in that order. *)
Theorem end_to_end_scenario (rnd : nat -> nat) :
  (forall k, drawn_entry names rnd k = nth 0 names []) ->
  fst (script 2 1 names_literal (initial rnd)) = Ok tt
  /\ lines (output 2 1 names_literal rnd)
     = [ "BEGIN;";
         "INSERT OR REPLACE INTO people VALUES (0, "
           ++ String dquote "George Washington" ++ String dquote ");";
         "INSERT OR REPLACE INTO people VALUES (1, "
           ++ String dquote "George Washington" ++ String dquote ");";
         "COMMIT;" ]
  /\ output 2 1 names_literal rnd
     = "BEGIN;" ++ String newline
         ("INSERT OR REPLACE INTO people VALUES (0, "
            ++ String dquote "George Washington" ++ String dquote ");")
         ++ String newline
         ("INSERT OR REPLACE INTO people VALUES (1, "
            ++ String dquote "George Washington" ++ String dquote ");")
         ++ String newline "COMMIT;" ++ String newline "".
Proof.
  intros H.
  assert (Hname : forall k, name_at names rnd k = "George Washington").
  { intros k. unfold name_at. rewrite !H. reflexivity. }
  split.
  { now rewrite (script_run _ _ _ _ names_usable). }
  rewrite output_lines, (output_text _ _ _ _ names_usable). fold names.
  change (Z.to_nat 2) with 2%nat. change (Z.to_nat 1) with 1%nat.
  unfold insert_lines, pass_lines. cbn [seq flat_map map app].
  rewrite !Hname. split; reflexivity.
Qed.

Lemma end_to_end_scenario_witness :
  lines (output 2 1 names_literal (fun _ => 0%nat))
  = [ "BEGIN;";
      "INSERT OR REPLACE INTO people VALUES (0, "
        ++ String dquote "George Washington" ++ String dquote ");";
      "INSERT OR REPLACE INTO people VALUES (1, "
        ++ String dquote "George Washington" ++ String dquote ");";
      "COMMIT;" ].
Proof.
  refine (proj1 (proj2 (end_to_end_scenario (fun _ => 0%nat) _))).
  intros k. reflexivity.
Defined.

(** ** Loops *)

Section Loops.

Lemma for_app {A} (l l' : list A) (body : A -> M unit) (w : World) :
  for_ (l ++ l') body w = (for_ l body ;; for_ l' body) w.
Proof.
  revert w. induction l as [|x l IH]; intros w; [reflexivity|].
  cbn [app for_]. unfold bind.
  destruct (body x w) as [[[]|e] w1]; [|reflexivity].
  rewrite IH. reflexivity.
Qed.

Lemma for_map {A B} (f : B -> A) (l : list B) (body : A -> M unit) (w : World) :
  for_ (map f l) body w = for_ l (fun b => body (f b)) w.
Proof.
  revert w. induction l as [|x l IH]; intros w; [reflexivity|].
  cbn [map for_]. unfold bind.
  destruct (body (f x) w) as [[[]|e] w1]; [apply IH | reflexivity].
Qed.

(** Two nested loops run their body once per pair, the outer variable
    changing slowest. *)
Lemma for_nested {A B} (l : list A) (l' : list B) (body : A -> B -> M unit)
    (w : World) :
  for_ l (fun a => for_ l' (fun b => body a b)) w
  = for_ (list_prod l l') (fun ab => body (fst ab) (snd ab)) w.
Proof.
  revert w. induction l as [|x l IH]; intros w; [reflexivity|].
  cbn [list_prod for_]. rewrite for_app. unfold bind.
  rewrite for_map. cbn [fst snd].
  destruct (for_ l' (fun b => body x b) w) as [[[]|e] w1];
    [apply IH | reflexivity].
Qed.

End Loops.

(** C8: for non-negative [ITEMS] and [EDITS] the two loops run the body
    once for each of the [EDITS * ITEMS] pairs (pass, slot), one after the
    other in pass-major order, whatever the pool; with the pool of the
    script the run then ends normally, having made two draws and printed
    one insert line per iteration. *)
Theorem terminates_after_all_iterations (items edits : Z)
    (literal : list string) :
  0 <= items -> 0 <= edits ->
  let iterations := list_prod (range edits) (range items) in
  Z.of_nat (List.length iterations) = edits * items
  /\ (forall w : World,
        script items edits literal w
        = (print "BEGIN;" ;;
           for_ iterations
             (fun pass_slot =>
                name <- full_name (split_names literal) ;;
                print_insert (snd pass_slot) name) ;;
           print "COMMIT;") w)
  /\ forall rnd : nat -> nat,
       exists w' : World,
         script items edits names_literal (initial rnd) = (Ok tt, w')
         /\ Z.of_nat (drawn w') = 2 * (edits * items)
         /\ Z.of_nat (List.length (filter is_insert (lines (stdout w'))))
            = edits * items.
Proof.
  intros Hi He iterations. split.
  { subst iterations. unfold range.
    rewrite length_prod, !length_map, !length_seq. lia. }
  split.
  { intros w. unfold script. unfold bind at 1 4.
    destruct (print "BEGIN;" w) as [[[]|e] w1]; [|reflexivity].
    unfold bind at 1 3. subst iterations. rewrite for_nested.
    reflexivity. }
  intros rnd.
  exists (snd (script items edits names_literal (initial rnd))).
  split; [now rewrite (script_run _ _ _ _ names_usable)|]. split.
  { rewrite (script_run _ _ _ _ names_usable). cbn [snd drawn initial]. lia. }
  change (stdout (snd (script items edits names_literal (initial rnd))))
    with (output items edits names_literal rnd).
  rewrite output_lines.
  rewrite insert_lines_only by apply insert_lines_are_inserts.
  rewrite length_insert_lines. lia.
Qed.

Lemma terminates_after_all_iterations_witness :
  Z.of_nat (List.length (list_prod (range 500) (range 100))) = 500 * 100.
Proof.
  refine (proj1 (terminates_after_all_iterations 100 500 names_literal _ _));
    lia.
Defined.

(** A pool entry of a single token makes the subscript [[1]] fail: the
    error branch exists, the pool of the script never takes it. *)
Example single_token_entry_raises :
  script 1 1 ["Cher"] (initial (fun _ => 0%nat))
  = (Raise IndexError,
     {| random := fun _ => 0%nat; drawn := 2;
        stdout := "BEGIN;" ++ String newline "" |}).
Proof. reflexivity. Qed.

(** C9: after the split every entry of the pool has exactly two tokens, so
    on an entry chosen from the pool the subscripts [[0]] and [[1]] both
    succeed, and no run of the script, from any world and with any
    configuration, raises an exception. *)
Theorem pool_indexing_safe :
  Forall (fun entry => List.length entry = 2%nat) names
  /\ (forall w w' : World,
        exists entry first last,
          fst (choice names w) = Ok entry
          /\ fst (getitem entry 0 w') = Ok first
          /\ fst (getitem entry 1 w') = Ok last)
  /\ (forall w : World, exists name, fst (full_name names w) = Ok name)
  /\ forall (items edits : Z) (w : World),
       fst (script items edits names_literal w) = Ok tt.
Proof.
  split.
  { rewrite names_value. repeat constructor. }
  split.
  { intros w w'. rewrite (choice_run _ names_usable).
    destruct (drawn_entry_usable _ names_usable (random w) (drawn w))
      as [_ Hlen].
    eexists _, _, _. split; [reflexivity|].
    rewrite (getitem_nth _ 0%nat "") by lia.
    rewrite (getitem_nth _ 1%nat "") by lia.
    split; reflexivity. }
  split.
  { intros w. rewrite (full_name_run _ names_usable). eexists. reflexivity. }
  intros items edits w. now rewrite (script_run _ _ _ _ names_usable).
Qed.

(** C10: two runs with the same configuration and arbitrary random sources
    end the same way and print the same number of lines, the same first
    and last line and, line by line, the same slot; corresponding lines
    are equal or are two insert statements for one slot that differ in the
    name only. *)
Theorem skeleton_independent_of_random (items edits : Z)
    (r1 r2 : nat -> nat) :
  let l1 := lines (output items edits names_literal r1) in
  let l2 := lines (output items edits names_literal r2) in
  fst (script items edits names_literal (initial r1))
  = fst (script items edits names_literal (initial r2))
  /\ List.length l1 = List.length l2
  /\ hd_error l1 = Some "BEGIN;" /\ hd_error l2 = Some "BEGIN;"
  /\ last l1 "" = "COMMIT;" /\ last l2 "" = "COMMIT;"
  /\ map slot_of l1 = map slot_of l2
  /\ map is_insert l1 = map is_insert l2
  /\ Forall2
       (fun a b =>
          a = b
          \/ exists slot n1 n2,
               a = insert_statement slot n1 /\ b = insert_statement slot n2)
       l1 l2.
Proof.
  intros l1 l2. subst l1 l2. rewrite !output_lines.
  rewrite !(script_run _ _ _ _ names_usable). cbn [fst hd_error].
  rewrite !last_framed.
  assert (HF : Forall2
       (fun a b =>
          a = b
          \/ exists slot n1 n2,
               a = insert_statement slot n1 /\ b = insert_statement slot n2)
       (insert_lines names r1 (Z.to_nat items) (Z.to_nat edits))
       (insert_lines names r2 (Z.to_nat items) (Z.to_nat edits))).
  { unfold insert_lines. apply Forall2_flat_map_same. intros p.
    unfold pass_lines. apply Forall2_map_same. intros s.
    right. eexists _, _, _. split; reflexivity. }
  assert (HS : forall f : string -> option Z * bool,
             (forall slot n1 n2, f (insert_statement slot n1)
                                 = f (insert_statement slot n2)) ->
             map f (insert_lines names r1 (Z.to_nat items) (Z.to_nat edits))
             = map f (insert_lines names r2 (Z.to_nat items)
                        (Z.to_nat edits))).
  { intros f Hf. induction HF as [|a b la lb Hab _ IH]; [reflexivity|].
    cbn [map]. rewrite IH. f_equal.
    destruct Hab as [->|(slot & n1 & n2 & -> & ->)]; auto. }
  repeat split.
  - cbn [List.length]. rewrite !length_app, !length_insert_lines.
    reflexivity.
  - cbn [map]. rewrite !map_app. do 2 f_equal.
    specialize (HS (fun l => (slot_of l, is_insert l))).
    apply (f_equal (map fst)) in HS.
    + rewrite !map_map in HS. exact HS.
    + intros. now rewrite !slot_of_statement, !is_insert_statement.
  - cbn [map]. rewrite !map_app. do 2 f_equal.
    specialize (HS (fun l => (slot_of l, is_insert l))).
    apply (f_equal (map snd)) in HS.
    + rewrite !map_map in HS. exact HS.
    + intros. now rewrite !slot_of_statement, !is_insert_statement.
  - constructor; [now left|]. apply Forall2_app; [exact HF|].
    constructor; [now left | constructor].
Qed.

(** ** The loop body on an arbitrary pool *)

Section AnyPool.

Variable pool : list (list string).

Lemma bind_ok {A B} (m : M A) (k : A -> M B) (w : World) (a : A)
    (w' : World) :
  m w = (Ok a, w') -> (x <- m ;; k x) w = k a w'.
Proof.
  intros H. unfold bind. now rewrite H.
Qed.

Lemma bind_raise {A B} (m : M A) (k : A -> M B) (w : World) (e : exn)
    (w' : World) :
  m w = (Raise e, w') -> (x <- m ;; k x) w = (Raise e, w').
Proof.
  intros H. unfold bind. now rewrite H.
Qed.

Lemma getitem_out_of_range {A} (l : list A) (i : nat) (w : World) :
  (List.length l <= i)%nat ->
  getitem l (Z.of_nat i) w = (Raise IndexError, w).
Proof.
  intros Hi. unfold getitem.
  destruct (Z.ltb_spec (Z.of_nat i) 0) as [Hneg|_]; [lia|].
  destruct (Z.ltb_spec (Z.of_nat i) (Z.of_nat (List.length l))) as [Hlt|_];
    [lia|].
  rewrite andb_false_r. reflexivity.
Qed.

Lemma after_no_draw (w : World) : after_draws 0 w = w.
Proof.
  destruct w. unfold after_draws. cbn. now rewrite Nat.add_0_r.
Qed.

Lemma choice_nonempty (w : World) :
  pool <> [] ->
  choice pool w
  = (Ok (drawn_entry pool (random w) (drawn w)), after_draws 1 w).
Proof.
  intros Hne. unfold choice, drawn_entry, after_draws.
  destruct pool as [|e es] eqn:E; [congruence|].
  rewrite Nat.add_1_r. do 2 f_equal.
  apply nth_indep. apply Nat.mod_upper_bound. discriminate.
Qed.

(** The assignment to [full_name] either yields the name built from the
    two draws, or stops with [IndexError] after at most two draws. *)
Lemma full_name_general (w : World) :
  (draws_ok pool (random w) (drawn w) = true
   /\ full_name pool w
      = (Ok (name_at pool (random w) (drawn w)), after_draws 2 w))
  \/ (draws_ok pool (random w) (drawn w) = false
      /\ exists k, (k <= 2)%nat
                   /\ full_name pool w = (Raise IndexError, after_draws k w)).
Proof.
  unfold draws_ok, full_name, bind.
  destruct pool as [|e0 es] eqn:E.
  { right. split; [reflexivity|]. exists 0%nat. split; [lia|].
    cbn. now rewrite after_no_draw. }
  rewrite <- E. assert (Hne : pool <> []) by (rewrite E; discriminate).
  rewrite (choice_nonempty _ Hne).
  destruct (Nat.leb_spec 1 (List.length (drawn_entry pool (random w) (drawn w))))
    as [Ha|Ha].
  2:{ right. split; [reflexivity|]. exists 1%nat. split; [lia|].
      rewrite (getitem_out_of_range _ 0%nat) by lia. reflexivity. }
  rewrite (getitem_nth _ 0%nat "") by lia.
  rewrite (choice_nonempty _ Hne). cbn [after_draws random drawn stdout].
  rewrite Nat.add_1_r.
  destruct (Nat.leb_spec 2
              (List.length (drawn_entry pool (random w) (S (drawn w)))))
    as [Hb|Hb].
  - left. split; [reflexivity|].
    rewrite (getitem_nth _ 1%nat "") by lia.
    unfold lift. rewrite format_full_name. unfold name_at, after_draws.
    cbn [random drawn stdout]. do 2 f_equal. lia.
  - right. split; [reflexivity|]. exists 2%nat. split; [lia|].
    rewrite (getitem_out_of_range _ 1%nat) by lia.
    unfold after_draws. cbn [random drawn stdout]. do 2 f_equal. lia.
Qed.

Lemma first_statements_cons (rnd : nat -> nat) (x : Z) (l : list Z)
    (d j : nat) :
  first_statements pool rnd (x :: l) d (S j)
  = insert_statement x (name_at pool rnd d)
    :: first_statements pool rnd l (S (S d)) j.
Proof.
  unfold first_statements. cbn [seq map nth].
  rewrite Nat.mul_0_r, Nat.add_0_r. f_equal.
  rewrite <- seq_shift, map_map. apply map_ext. intros i.
  cbn [nth]. do 2 f_equal. lia.
Qed.

(** The loop over the slots, flattened: it prints the statements of the
    iterations before the first one whose draws select an entry with too
    few tokens, and stops there with [IndexError]; without such an
    iteration it prints them all. *)
Lemma slots_loop_general (slots : list Z) : forall w : World,
  exists j : nat,
    (forall i, (i < j)%nat ->
               draws_ok pool (random w) (drawn w + 2 * i) = true)
    /\ ((j = List.length slots
         /\ for_ slots
              (fun item => name <- full_name pool ;; print_insert item name) w
            = (Ok tt,
               {| random := random w; drawn := drawn w + 2 * j;
                  stdout :=
                    stdout w
                    ++ unlines (first_statements pool (random w) slots
                                  (drawn w) j) |}))
        \/ ((j < List.length slots)%nat
            /\ draws_ok pool (random w) (drawn w + 2 * j) = false
            /\ exists k, (k <= 2)%nat
               /\ for_ slots
                    (fun item =>
                       name <- full_name pool ;; print_insert item name) w
                  = (Raise IndexError,
                     {| random := random w; drawn := drawn w + 2 * j + k;
                        stdout :=
                          stdout w
                          ++ unlines (first_statements pool (random w) slots
                                        (drawn w) j) |}))).
Proof.
  induction slots as [|x l IH]; intros w.
  { exists 0%nat. split; [intros i Hi; lia|]. left. split; [reflexivity|].
    cbn. unfold ret. destruct w; cbn.
    now rewrite Nat.add_0_r, append_empty_r. }
  cbn [for_].
  destruct (full_name_general w) as [[Hok Hfn]|[Hbad (k & Hk & Hfn)]].
  - set (w1 := {| random := random w; drawn := S (S (drawn w));
                  stdout := stdout w
                            ++ insert_statement x
                                 (name_at pool (random w) (drawn w))
                            ++ String newline "" |}).
    assert (Hbody : (name <- full_name pool ;; print_insert x name) w
                    = (Ok tt, w1)).
    { rewrite (bind_ok _ _ _ _ _ Hfn), print_insert_run.
      unfold after_draws, w1. cbn [random drawn stdout].
      do 2 f_equal. lia. }
    destruct (IH w1) as (j & Hall & Hcase).
    exists (S j). cbn [random drawn stdout w1] in Hall, Hcase.
    split.
    { intros [|i] Hi; [now rewrite Nat.add_0_r|].
      replace (drawn w + 2 * S i)%nat with (S (S (drawn w)) + 2 * i)%nat
        by lia.
      apply Hall. lia. }
    rewrite (bind_ok _ _ _ _ _ Hbody).
    rewrite first_statements_cons. cbn [unlines List.length].
    replace (drawn w + 2 * S j)%nat with (S (S (drawn w)) + 2 * j)%nat
      by lia.
    rewrite !append_assoc in Hcase. cbn [append] in Hcase.
    destruct Hcase as [[Hj Hrun]|(Hlt & Hbad & k & Hk & Hrun)]; rewrite Hrun.
    + left. split; [now rewrite Hj | reflexivity].
    + right. split; [lia|]. split; [exact Hbad|].
      exists k. split; [exact Hk | reflexivity].
  - assert (Hbody : (name <- full_name pool ;; print_insert x name) w
                    = (Raise IndexError, after_draws k w)).
    { apply (bind_raise _ _ _ _ _ Hfn). }
    exists 0%nat. split; [intros i Hi; lia|]. right.
    split; [cbn; lia|]. rewrite Nat.add_0_r. split; [exact Hbad|].
    exists k. split; [exact Hk|].
    rewrite (bind_raise _ _ _ _ _ Hbody).
    unfold after_draws, first_statements. cbn.
    now rewrite append_empty_r.
Qed.

End AnyPool.

(** ** Tokens *)

Section Tokens.

Lemma no_space_append (a b : string) :
  no_space (a ++ b) = no_space a && no_space b.
Proof.
  induction a as [|x a IH]; simpl; [reflexivity|].
  rewrite IH. now rewrite andb_assoc.
Qed.

Lemma no_space_no_newline (s : string) :
  no_space s = true -> no_newline s = true.
Proof.
  induction s as [|c s IH]; simpl; [reflexivity|]. intros H.
  apply andb_true_iff in H. destruct H as [Hc Hs].
  rewrite (IH Hs), andb_true_r.
  destruct (Ascii.eqb_spec c newline) as [->|_]; [discriminate Hc|].
  reflexivity.
Qed.

(** Every token is free of whitespace and not empty. *)
Lemma split_from_tokens (s : string) : forall cur : string,
  no_space cur = true ->
  Forall (fun t => no_space t = true /\ t <> "") (split_from s cur).
Proof.
  induction s as [|c s IH]; intros cur Hcur; cbn [split_from].
  - destruct cur; repeat constructor; [exact Hcur | discriminate].
  - destruct (isspace c) eqn:Hc.
    + destruct cur.
      * now apply IH.
      * constructor; [split; [exact Hcur | discriminate]|]. now apply IH.
    + apply IH. rewrite no_space_append, Hcur. cbn. now rewrite Hc.
Qed.

Lemma split_tokens (s : string) :
  Forall (fun t => no_space t = true /\ t <> "") (split s).
Proof.
  apply split_from_tokens. reflexivity.
Qed.

(** Scanning over a whitespace-free piece only extends the current token. *)
Lemma split_from_token (t rest : string) : forall cur : string,
  no_space t = true ->
  split_from (t ++ rest) cur = split_from rest (cur ++ t).
Proof.
  induction t as [|c t IH]; intros cur Ht.
  - cbn. now rewrite append_empty_r.
  - cbn in Ht. apply andb_true_iff in Ht. destruct Ht as [Hc Ht].
    apply negb_true_iff in Hc. cbn [append split_from]. rewrite Hc.
    rewrite (IH _ Ht), append_assoc. reflexivity.
Qed.

Lemma split_two_tokens (f l : string) :
  no_space f = true -> f <> "" -> no_space l = true -> l <> "" ->
  split (f ++ " " ++ l) = [f; l].
Proof.
  intros Hf Hfne Hl Hlne. unfold split.
  rewrite (split_from_token f _ "" Hf). cbn [append split_from].
  change (isspace " ") with true. cbn iota.
  destruct f as [|c f]; [congruence|].
  rewrite <- (append_empty_r l) at 1.
  rewrite (split_from_token l "" "" Hl). cbn [append split_from].
  destruct l; [congruence | reflexivity].
Qed.

Lemma nth_token (literal : list string) (rnd : nat -> nat) (k i : nat) :
  let t := nth i (drawn_entry (split_names literal) rnd k) "" in
  no_space t = true
  /\ ((i < List.length (drawn_entry (split_names literal) rnd k))%nat ->
      t <> "").
Proof.
  intros t. subst t. unfold drawn_entry.
  set (pool := split_names literal).
  set (idx := (rnd k mod List.length pool)%nat).
  assert (He : Forall (fun t => no_space t = true /\ t <> "")
                 (nth idx pool [])).
  { destruct (nth_in_or_default idx pool []) as [Hin|Heq];
      [|rewrite Heq; constructor].
    unfold pool, split_names in Hin. apply in_map_iff in Hin.
    destruct Hin as (s & Hs & _).
    replace (nth idx pool []) with (split s) by exact Hs.
    apply split_tokens. }
  rewrite Forall_forall in He. split.
  - destruct (nth_in_or_default i (nth idx pool []) "") as [Hin|Heq];
      [apply (He _ Hin) | now rewrite Heq].
  - intros Hi. apply (He _ (nth_In _ "" Hi)).
Qed.

Lemma no_newline_name_general (literal : list string) (rnd : nat -> nat)
    (k : nat) :
  no_newline (name_at (split_names literal) rnd k) = true.
Proof.
  unfold name_at. rewrite !no_newline_append.
  rewrite (no_space_no_newline _ (proj1 (nth_token literal rnd k 0))).
  rewrite (no_space_no_newline _ (proj1 (nth_token literal rnd (S k) 1))).
  reflexivity.
Qed.



End Tokens.

(** ** The script on an arbitrary pool *)

Section AnyScript.

Lemma script_flat (items edits : Z) (literal : list string) (w : World) :
  script items edits literal w
  = (print "BEGIN;" ;;
     for_ (iteration_slots items edits)
       (fun item =>
          name <- full_name (split_names literal) ;; print_insert item name) ;;
     print "COMMIT;") w.
Proof.
  unfold script. unfold bind at 1 4.
  destruct (print "BEGIN;" w) as [[[]|e] w1]; [|reflexivity].
  unfold bind at 1 3. rewrite for_nested. unfold iteration_slots.
  rewrite for_map. reflexivity.
Qed.

Lemma length_iteration_slots (items edits : Z) :
  List.length (iteration_slots items edits)
  = (Z.to_nat edits * Z.to_nat items)%nat.
Proof.
  unfold iteration_slots, range.
  now rewrite length_map, length_prod, !length_map, !length_seq.
Qed.

(** What a run does, whatever the pool: it prints [BEGIN;] and the
    statements of the iterations before the first one that fails; if none
    fails it prints [COMMIT;] and ends normally, otherwise it stops there
    with [IndexError]. *)
Lemma script_outcome (items edits : Z) (literal : list string) (w : World) :
  let pool := split_names literal in
  let slots := iteration_slots items edits in
  exists j : nat,
    (forall i, (i < j)%nat ->
               draws_ok pool (random w) (drawn w + 2 * i) = true)
    /\ ((j = List.length slots
         /\ script items edits literal w
            = (Ok tt,
               {| random := random w; drawn := drawn w + 2 * j;
                  stdout :=
                    stdout w
                    ++ unlines
                         ("BEGIN;"
                          :: first_statements pool (random w) slots
                               (drawn w) j
                          ++ ["COMMIT;"]) |}))
        \/ ((j < List.length slots)%nat
            /\ draws_ok pool (random w) (drawn w + 2 * j) = false
            /\ exists k, (k <= 2)%nat
               /\ script items edits literal w
                  = (Raise IndexError,
                     {| random := random w; drawn := drawn w + 2 * j + k;
                        stdout :=
                          stdout w
                          ++ unlines
                               ("BEGIN;"
                                :: first_statements pool (random w) slots
                                     (drawn w) j) |}))).
Proof.
  intros pool slots. rewrite script_flat. fold pool slots.
  set (w0 := {| random := random w; drawn := drawn w;
                stdout := stdout w ++ "BEGIN;" ++ String newline "" |}).
  rewrite (bind_ok (print "BEGIN;") _ w tt w0 eq_refl).
  destruct (slots_loop_general pool slots w0) as (j & Hall & Hcase).
  exists j. cbn [random drawn stdout w0] in Hall, Hcase.
  split; [exact Hall|]. cbn [unlines].
  destruct Hcase as [[Hj Hrun]|(Hlt & Hbad & k & Hk & Hrun)].
  - left. split; [exact Hj|].
    rewrite (bind_ok _ _ _ _ _ Hrun). unfold print.
    cbn [random drawn stdout]. rewrite unlines_app. cbn [unlines].
    rewrite !append_assoc. reflexivity.
  - right. split; [exact Hlt|]. split; [exact Hbad|].
    exists k. split; [exact Hk|].
    rewrite (bind_raise _ _ _ _ _ Hrun). rewrite !append_assoc.
    reflexivity.
Qed.

End AnyScript.

(** ** Edge cases and failures *)

(** X1: when [ITEMS] or [EDITS] is zero or negative the loops do not run a
    single iteration: the run ends normally, makes no draw, and prints
    [BEGIN;] and [COMMIT;] only, whatever the pool, an empty one
    included. *)
Theorem empty_range_run (items edits : Z) (literal : list string)
    (w : World) :
  items <= 0 \/ edits <= 0 ->
  script items edits literal w
  = (Ok tt,
     {| random := random w; drawn := drawn w;
        stdout :=
          stdout w ++ "BEGIN;" ++ String newline "COMMIT;"
            ++ String newline "" |}).
Proof.
  intros Hz.
  assert (Hn : List.length (iteration_slots items edits) = 0%nat).
  { rewrite length_iteration_slots. destruct Hz; nia. }
  destruct (script_outcome items edits literal w) as (j & _ & Hcase).
  rewrite Hn in Hcase.
  destruct Hcase as [[-> ->]|(Hlt & _)]; [|lia].
  cbn. now rewrite Nat.add_0_r.
Qed.

Lemma empty_range_run_witness :
  script 0 500 [] (initial (fun k => k))
  = (Ok tt,
     {| random := fun k => k; drawn := 0;
        stdout := "BEGIN;" ++ String newline "COMMIT;"
                    ++ String newline "" |}).
Proof.
  refine (empty_range_run 0 500 [] (initial (fun k => k)) _).
  left. lia.
Defined.




(** X4: a run ends normally exactly when, in every iteration, the first
    draw selects an entry with at least one token and the second draw an
    entry with at least two; an entry with too few tokens is harmless as
    long as no draw that needs more selects it. *)
Theorem run_succeeds_iff_draws_ok (items edits : Z) (literal : list string)
    (rnd : nat -> nat) :
  fst (script items edits literal (initial rnd)) = Ok tt
  <-> (forall k, (k < Z.to_nat edits * Z.to_nat items)%nat ->
                 draws_ok (split_names literal) rnd (2 * k) = true).
Proof.
  destruct (script_outcome items edits literal (initial rnd))
    as (j & Hall & Hcase).
  rewrite length_iteration_slots in Hcase.
  cbn [random drawn initial Nat.add] in Hall, Hcase.
  destruct Hcase as [[Hj ->]|(Hlt & Hbad & k & Hk & ->)]; cbn [fst].
  - split; [|reflexivity]. intros _ i Hi. apply Hall. lia.
  - split; [discriminate|]. intros H. rewrite (H j Hlt) in Hbad.
    discriminate Hbad.
Qed.

Lemma run_succeeds_iff_draws_ok_witness :
  fst (script 3 2 ["Ada Lovelace"; "Cher"] (initial (fun _ => 0%nat)))
  = Ok tt.
Proof.
  refine (proj2 (run_succeeds_iff_draws_ok 3 2 ["Ada Lovelace"; "Cher"]
                   (fun _ => 0%nat)) _).
  intros k _. reflexivity.
Defined.

(** X5: with an empty pool and at least one iteration to run, the first
    [random.choice] raises [IndexError]: [BEGIN;] is the only line
    printed and no draw is made. *)
Theorem empty_pool_raises (items edits : Z) (w : World) :
  0 < items -> 0 < edits ->
  script items edits [] w
  = (Raise IndexError,
     {| random := random w; drawn := drawn w;
        stdout := stdout w ++ "BEGIN;" ++ String newline "" |}).
Proof.
  intros Hi He. rewrite script_flat.
  set (w0 := {| random := random w; drawn := drawn w;
                stdout := stdout w ++ "BEGIN;" ++ String newline "" |}).
  rewrite (bind_ok (print "BEGIN;") _ w tt w0 eq_refl).
  pose proof (length_iteration_slots items edits) as Hn.
  destruct (iteration_slots items edits) as [|x l]; [cbn in Hn; nia|].
  reflexivity.
Qed.

Lemma empty_pool_raises_witness :
  script 100 500 [] (initial (fun k => k))
  = (Raise IndexError,
     {| random := fun k => k; drawn := 0;
        stdout := "BEGIN;" ++ String newline "" |}).
Proof.
  refine (empty_pool_raises 100 500 (initial (fun k => k)) _ _); lia.
Defined.

(** ** Pool entries and their tokens *)

Section Entries.

Lemma no_newline_insert_lines_general (literal : list string)
    (rnd : nat -> nat) (items edits : nat) :
  forallb no_newline (insert_lines (split_names literal) rnd items edits)
  = true.
Proof.
  apply forallb_forall. intros l Hl. unfold insert_lines in Hl.
  apply in_flat_map in Hl. destruct Hl as (p & _ & Hl).
  unfold pass_lines in Hl. apply in_map_iff in Hl.
  destruct Hl as (s & <- & _).
  rewrite no_newline_insert_statement. apply no_newline_name_general.
Qed.

Lemma draws_ok_lengths (pool : list (list string)) (rnd : nat -> nat)
    (d : nat) :
  draws_ok pool rnd d = true ->
  (1 <= List.length (drawn_entry pool rnd d))%nat
  /\ (2 <= List.length (drawn_entry pool rnd (S d)))%nat.
Proof.
  unfold draws_ok. destruct pool as [|e es]; [discriminate|].
  intros H. apply andb_true_iff in H. destruct H as [Ha Hb].
  apply Nat.leb_le in Ha. apply Nat.leb_le in Hb. now split.
Qed.

(** Subscripts below 2 see only the first two tokens of an entry. *)
Lemma getitem_firstn (a b : list string) (i : nat) (w : World) :
  firstn 2 a = firstn 2 b -> (i < 2)%nat ->
  getitem a (Z.of_nat i) w = getitem b (Z.of_nat i) w.
Proof.
  intros H Hi.
  destruct a as [|x [|y a]], b as [|x' [|y' b]]; cbn in H;
    try discriminate H; try reflexivity; inversion H; subst;
    destruct i as [|[|i]]; try lia;
    rewrite ?(getitem_nth _ 0%nat "") by (cbn; lia);
    rewrite ?(getitem_nth _ 1%nat "") by (cbn; lia);
    rewrite ?(getitem_out_of_range _ 1%nat) by (cbn; lia);
    reflexivity.
Qed.

Lemma choice_firstn (p1 p2 : list (list string)) (w : World) :
  map (firstn 2) p1 = map (firstn 2) p2 ->
  (fst (choice p1 w) = Raise IndexError /\ choice p2 w = choice p1 w)
  \/ exists a b,
       choice p1 w = (Ok a, after_draws 1 w)
       /\ choice p2 w = (Ok b, after_draws 1 w)
       /\ firstn 2 a = firstn 2 b.
Proof.
  intros H.
  assert (Hlen : List.length p1 = List.length p2).
  { apply (f_equal (@List.length _)) in H. now rewrite !length_map in H. }
  destruct p1 as [|x1 p1'] eqn:E1.
  { destruct p2; [|discriminate Hlen]. left. split; reflexivity. }
  destruct p2 as [|x2 p2'] eqn:E2; [discriminate Hlen|].
  right. rewrite <- E1, <- E2 in *.
  assert (N1 : p1 <> []) by (rewrite E1; discriminate).
  assert (N2 : p2 <> []) by (rewrite E2; discriminate).
  rewrite (choice_nonempty _ w N1), (choice_nonempty _ w N2).
  eexists _, _. split; [reflexivity|]. split; [reflexivity|].
  unfold drawn_entry. rewrite <- Hlen.
  set (i := (random w (drawn w) mod List.length p1)%nat).
  rewrite <- !(map_nth (firstn 2)). now rewrite H.
Qed.

Lemma bind_congr {A B} (m1 m2 : M A) (k1 k2 : A -> M B) (w : World) :
  m1 w = m2 w -> (forall a v, k1 a v = k2 a v) ->
  (x <- m1 ;; k1 x) w = (x <- m2 ;; k2 x) w.
Proof.
  intros Hm Hk. unfold bind. rewrite Hm.
  destruct (m2 w) as [[a|e] v]; [apply Hk | reflexivity].
Qed.

Lemma choice_then_firstn {B} (p1 p2 : list (list string))
    (k1 k2 : list string -> M B) (w : World) :
  map (firstn 2) p1 = map (firstn 2) p2 ->
  (forall a b v, firstn 2 a = firstn 2 b -> k1 a v = k2 b v) ->
  (a <- choice p1 ;; k1 a) w = (b <- choice p2 ;; k2 b) w.
Proof.
  intros H Hk.
  destruct (choice_firstn p1 p2 w H)
    as [[Hr Hc]|(a & b & Ha & Hb & Hab)].
  - destruct (choice p1 w) as [[a|e] w1] eqn:E; [discriminate Hr|].
    cbn in Hr. rewrite (bind_raise _ _ _ _ _ E).
    now rewrite (bind_raise _ _ _ _ _ Hc).
  - rewrite (bind_ok _ _ _ _ _ Ha), (bind_ok _ _ _ _ _ Hb). now apply Hk.
Qed.

Lemma full_name_firstn (p1 p2 : list (list string)) (w : World) :
  map (firstn 2) p1 = map (firstn 2) p2 ->
  full_name p1 w = full_name p2 w.
Proof.
  intros H. unfold full_name.
  apply (choice_then_firstn _ _ _ _ _ H). intros a b v Hab.
  apply bind_congr; [apply (getitem_firstn a b 0 v Hab); lia|].
  intros first v1.
  apply (choice_then_firstn _ _ _ _ _ H). intros a' b' v2 Hab'.
  apply bind_congr; [apply (getitem_firstn a' b' 1 v2 Hab'); lia|].
  reflexivity.
Qed.

Lemma for_ext {A} (l : list A) (f g : A -> M unit) :
  (forall x w, f x w = g x w) -> forall w, for_ l f w = for_ l g w.
Proof.
  intros H. induction l as [|x l IH]; intros w; [reflexivity|].
  cbn [for_]. unfold bind. rewrite H.
  destruct (g x w) as [[[]|e] w1]; [apply IH | reflexivity].
Qed.

End Entries.

(** X6: for every list literal whose entries all have at least two tokens,
    the output read line by line is [BEGIN;], one insert statement per
    iteration in pass-major order, and [COMMIT;]: whatever whitespace the
    literal holds, line breaks included, none of it reaches a printed
    name. *)
Theorem usable_pool_output_lines (items edits : Z) (literal : list string)
    (rnd : nat -> nat) :
  usable (split_names literal) ->
  lines (output items edits literal rnd)
  = "BEGIN;"
    :: insert_lines (split_names literal) rnd
         (Z.to_nat items) (Z.to_nat edits)
    ++ ["COMMIT;"].
Proof.
  intros Hpool. rewrite (output_text _ _ _ _ Hpool). apply lines_unlines.
  cbn [forallb]. rewrite forallb_app, no_newline_insert_lines_general.
  reflexivity.
Qed.

Lemma usable_pool_output_lines_witness :
  lines (output 1 1
           ["Ada" ++ String newline "Lovelace";
            String "009" "Alan Mathison  Turing "]
           (fun k => k))
  = ["BEGIN;";
     "INSERT OR REPLACE INTO people VALUES (0, "
       ++ String dquote "Ada Mathison" ++ String dquote ");";
     "COMMIT;"].
Proof.
  refine (usable_pool_output_lines 1 1 _ (fun k => k) _).
  split; [discriminate|].
  apply Forall_forall. intros e [<-|[<-|[]]]; vm_compute; lia.
Defined.

(** X7: whenever the assignment to [full_name] succeeds, the name it
    builds splits back into exactly two tokens, the first token of the
    entry of the first draw and the second token of the entry of the
    second draw. *)
Theorem printed_name_splits_back (literal : list string) (w w' : World)
    (name : string) :
  full_name (split_names literal) w = (Ok name, w') ->
  split name
  = [ nth 0 (drawn_entry (split_names literal) (random w) (drawn w)) "";
      nth 1 (drawn_entry (split_names literal) (random w) (S (drawn w)))
        "" ].
Proof.
  intros Hrun.
  destruct (full_name_general (split_names literal) w)
    as [[Hok Hfn]|[_ (k & _ & Hfn)]]; rewrite Hfn in Hrun;
    [|discriminate Hrun].
  injection Hrun as <- _.
  destruct (draws_ok_lengths _ _ _ Hok) as [Ha Hb].
  destruct (nth_token literal (random w) (drawn w) 0) as [Hf Hfne].
  destruct (nth_token literal (random w) (S (drawn w)) 1) as [Hl Hlne].
  unfold name_at. apply split_two_tokens; auto.
Qed.

Lemma printed_name_splits_back_witness :
  split "Alan Mathison" = ["Alan"; "Mathison"].
Proof.
  refine (printed_name_splits_back ["Alan Mathison Turing"]
            (initial (fun k => k))
            (after_draws 2 (initial (fun k => k))) "Alan Mathison" _).
  reflexivity.
Defined.

(** X8: of every pool entry only the first two tokens are ever used: two
    list literals whose entries agree on their first two tokens give the
    same run, from every world and for every configuration, failures
    included. *)
Theorem only_first_two_tokens_matter (items edits : Z)
    (l1 l2 : list string) (w : World) :
  map (firstn 2) (split_names l1) = map (firstn 2) (split_names l2) ->
  script items edits l1 w = script items edits l2 w.
Proof.
  intros H. rewrite !script_flat. unfold bind at 1 4.
  destruct (print "BEGIN;" w) as [[[]|e] w1]; [|reflexivity].
  unfold bind at 1 3.
  rewrite (for_ext _ _
             (fun item =>
                name <- full_name (split_names l2) ;; print_insert item name)).
  - reflexivity.
  - intros x v. unfold bind. now rewrite (full_name_firstn _ _ v H).
Qed.

Lemma only_first_two_tokens_matter_witness :
  script 2 3 ["John Fitzgerald Kennedy"; "Cher"] (initial (fun k => k))
  = script 2 3 ["John Fitzgerald"; "Cher"] (initial (fun k => k)).
Proof.
  refine (only_first_two_tokens_matter 2 3 _ _ _ _).
  vm_compute. reflexivity.
Defined.

(** X9: a run does not care where it starts: begun after some draws have
    been made and some text has been printed, with a pool whose entries
    all have at least two tokens, it appends to that text exactly what a
    fresh run prints on the random source as it stands from the current
    draw on. *)
Theorem run_from_any_world (items edits : Z) (literal : list string)
    (w : World) :
  usable (split_names literal) ->
  script items edits literal w
  = (Ok tt,
     {| random := random w;
        drawn := drawn w + 2 * (Z.to_nat edits * Z.to_nat items);
        stdout :=
          stdout w
          ++ output items edits literal
               (fun k => random w (drawn w + k)%nat) |}).
Proof.
  intros Hpool.
  rewrite (output_text _ _ _ _ Hpool), (script_run _ _ _ _ Hpool).
  do 4 f_equal. unfold insert_lines, pass_lines.
  do 2 f_equal. apply flat_map_ext. intros p. apply map_ext. intros s.
  f_equal. unfold name_at, drawn_entry.
  now rewrite Nat.add_succ_r.
Qed.

Lemma run_from_any_world_witness :
  script 2 1 names_literal
    {| random := fun k => k; drawn := 3; stdout := "-- header" |}
  = (Ok tt,
     {| random := fun k => k; drawn := 3 + 2 * (Z.to_nat 1 * Z.to_nat 2);
        stdout :=
          "-- header"
          ++ output 2 1 names_literal (fun k => (3 + k)%nat) |}).
Proof.
  refine (run_from_any_world 2 1 names_literal
            {| random := fun k => k; drawn := 3; stdout := "-- header" |} _).
  exact names_usable.
Defined.
